(** * Wood: an inventory of wood items and their processing actions

    A shallow embedding of [wood.cpp].  The C++ [double] is the IEEE 754
    binary64 format with round-to-nearest-even, which is what the primitive
    [float] type computes; objects reached through pointers live in an
    explicit heap. *)

From Stdlib Require Import ZArith QArith List String Bool Floats Lia.
From stdpp Require Import gmap.
Import ListNotations.

Local Open Scope string_scope.

(** ** Doubles *)

(** The literal [0.8] of [DryWood::perform]: the double nearest to 4/5. *)
Definition c_0_8 : float := 0x1.999999999999ap-1%float.

(** [a > b] on doubles is [b < a]; it is false as soon as one side is NaN. *)
Definition gtb (a b : float) : bool := (b <? a)%float.

(** [c_0_8] as sign, mantissa and exponent: [7205759403792794 * 2^-53]. *)
Definition SF_0_8 : spec_float := S754_finite false 7205759403792794 (-53).

(** The exact value of a double, when it has one. *)
Definition SF2Q (x : spec_float) : option Q :=
  match x with
  | S754_zero _ => Some 0%Q
  | S754_finite s m e =>
      Some ((if s then -1 else 1) * inject_Z (Zpos m) * Qpower 2 e)%Q
  | S754_infinity _ | S754_nan => None
  end.

Definition exactly (x : float) (q : Q) : Prop :=
  match SF2Q (Prim2SF x) with
  | Some v => (v == q)%Q
  | None => False
  end.

(** [0.8^n] computed in doubles, one product at a time. *)
Fixpoint pow_0_8 (n : nat) : float :=
  match n with
  | O => 1%float
  | S k => (pow_0_8 k * c_0_8)%float
  end.

(** The last stage of [binary_round_aux], which rounds a product to 53
    bits: the rounded mantissa [r] is shifted once more if rounding made it
    54 bits long. *)
Definition round_finish (s : bool) (r e : Z) : spec_float :=
  let '(mrs, e') := shr_fexp prec emax r e loc_Exact in
  match shr_m mrs with
  | Z0 => S754_zero s
  | Zpos m =>
      if (e' <=? emax - prec)%Z then S754_finite s m e' else S754_infinity s
  | Zneg _ => S754_nan
  end.

(** ** Actions *)

(** The four classes derived from [WoodAction].  A [ConditionalTreatment]
    owns the action it wraps, so actions form finite trees. *)
Inductive WoodAction : Type :=
| CutWood (cut_length : float)
| DryWood
| TreatWood
| ConditionalTreatment (inner_action : WoodAction)
                       (condition_type : string) (condition_value : float).

(** ** Items *)

Record WoodItem : Type := mkWoodItem {
  type : string;
  thickness : float;
  moisture_content : float;
  is_treated : bool;
  processing_steps : list WoodAction
}.

Definition getType (item : WoodItem) : string := type item.
Definition getThickness (item : WoodItem) : float := thickness item.
Definition getMoisture (item : WoodItem) : float := moisture_content item.
Definition isTreated (item : WoodItem) : bool := is_treated item.

Definition setMoisture (m : float) (item : WoodItem) : WoodItem :=
  {| type := type item;
     thickness := thickness item;
     moisture_content := m;
     is_treated := is_treated item;
     processing_steps := processing_steps item |}.

Definition setTreated (t : bool) (item : WoodItem) : WoodItem :=
  {| type := type item;
     thickness := thickness item;
     moisture_content := moisture_content item;
     is_treated := t;
     processing_steps := processing_steps item |}.

(** [step->perform(item)]: virtual dispatch on the class of [step]; the item
    is passed by reference, so the new state of the item is the result. *)
Fixpoint perform (step : WoodAction) (item : WoodItem) : WoodItem :=
  match step with
  | CutWood _ => item
  | DryWood => setMoisture (getMoisture item * c_0_8)%float item
  | TreatWood => setTreated true item
  | ConditionalTreatment inner_action condition_type condition_value =>
      if String.eqb condition_type "MoistureAbove"
         && gtb (getMoisture item) condition_value
      then perform inner_action item
      else item
  end.

(** The range-based [for] over a vector of steps: [visit] is the loop body,
    [s] what the body acts upon. *)
Fixpoint for_each {S : Type} (visit : WoodAction -> S -> S)
    (steps : list WoodAction) (s : S) : S :=
  match steps with
  | [] => s
  | step :: rest => for_each visit rest (visit step s)
  end.

(** [WoodItem::process]. *)
Definition process (item : WoodItem) : WoodItem :=
  for_each perform (processing_steps item) item.

(** The same loop with a body that also records the step it performs. *)
Definition perform_logged (step : WoodAction)
    (s : list WoodAction * WoodItem) : list WoodAction * WoodItem :=
  ((fst s ++ [step])%list, perform step (snd s)).

Definition process_logged (item : WoodItem) : list WoodAction * WoodItem :=
  for_each perform_logged (processing_steps item) ([], item).

(** ** The inventory *)

(** Items are allocated with [new] and held by address. *)
Abbreviation loc := positive (only parsing).
Abbreviation Heap := (gmap positive WoodItem) (only parsing).

Definition new (item : WoodItem) (h : Heap) : loc * Heap :=
  let p := fresh (dom h) in (p, <[p := item]> h).

Record WoodInventory : Type := mkWoodInventory { items : list loc }.

Definition emptyInventory : WoodInventory := {| items := [] |}.

(** [push_back]. *)
Definition addItem (inv : WoodInventory) (item : loc) : WoodInventory :=
  {| items := (items inv ++ [item])%list |}.

Definition getItems (inv : WoodInventory) : list loc := items inv.

(** [item->process()] through a pointer; [None] when the pointer is not
    the address of a live item. *)
Definition process_at (p : loc) (h : Heap) : option Heap :=
  match h !! p with
  | Some item => Some (<[p := process item]> h)
  | None => None
  end.

Fixpoint processAll_loop (ps : list loc) (h : Heap) : option Heap :=
  match ps with
  | [] => Some h
  | p :: rest =>
      match process_at p h with
      | Some h' => processAll_loop rest h'
      | None => None
      end
  end.

Definition processAll (inv : WoodInventory) (h : Heap) : option Heap :=
  processAll_loop (items inv) h.

(** ** The test cases *)

(** [operator==] at the types the assertions compare. *)
Class CppEq (A : Type) : Type := cpp_eqb : A -> A -> bool.
#[global] Instance CppEq_size_t : CppEq nat := Nat.eqb.
#[global] Instance CppEq_string : CppEq string := String.eqb.
#[global] Instance CppEq_double : CppEq float := PrimFloat.eqb.

(** Modelled from the spec: [ASSERT_TRUE] and [ASSERT_EQ] come from
    [test1.h], which is not among the sources.  A test case is a callable
    returning a boolean success indicator and every case ends in
    [return true], so a failed assertion ends the case with [false]; the
    detail it prints is left out.  A test case is an [option bool]: [None]
    stands for reading through a pointer or an index that is not valid. *)
Definition ASSERT_TRUE (cond : bool) (rest : option bool) : option bool :=
  if cond then rest else Some false.

Definition ASSERT_EQ {A : Type} `{CppEq A} (a b : A) (rest : option bool)
    : option bool :=
  ASSERT_TRUE (cpp_eqb a b) rest.

Definition WoodTest_AddSingleItem : option bool :=
  let h : Heap := ∅ in
  let inv := emptyInventory in
  let steps := [CutWood 2.5%float] in
  let '(oak, h) := new (mkWoodItem "Oak" 25 12.5 false steps) h in
  let inv := addItem inv oak in
  let items := getItems inv in
  ASSERT_EQ (length items) 1%nat (
  p ← items !! 0%nat;
  item ← h !! p;
  ASSERT_EQ (getType item) "Oak" (
  Some true)).

Definition WoodTest_MultipleItemsCount : option bool :=
  let h : Heap := ∅ in
  let inv := emptyInventory in
  let '(pine, h) := new (mkWoodItem "Pine" 20 10 false []) h in
  let inv := addItem inv pine in
  let '(maple, h) := new (mkWoodItem "Maple" 30 8 true []) h in
  let inv := addItem inv maple in
  ASSERT_EQ (length (getItems inv)) 2%nat (
  Some true).

Definition WoodTest_ProcessDrying : option bool :=
  let h : Heap := ∅ in
  let inv := emptyInventory in
  let steps := [DryWood] in
  let '(teak, h) := new (mkWoodItem "Teak" 15 15 false steps) h in
  let inv := addItem inv teak in
  item ← h !! teak;
  let initial_moisture := getMoisture item in
  h ← processAll inv h;
  item ← h !! teak;
  ASSERT_TRUE (getMoisture item <? initial_moisture)%float (
  Some true).

Definition WoodTest_ConditionalTreatment : option bool :=
  let h : Heap := ∅ in
  let inv := emptyInventory in
  let steps := [ConditionalTreatment TreatWood "MoistureAbove" 10] in
  let '(walnut, h) := new (mkWoodItem "Walnut" 18 12 false steps) h in
  let inv := addItem inv walnut in
  h ← processAll inv h;
  p ← getItems inv !! 0%nat;
  item ← h !! p;
  ASSERT_TRUE (isTreated item) (
  Some true).

Definition WoodTest_ThicknessUnchangedAfterProcessing : option bool :=
  let h : Heap := ∅ in
  let inv := emptyInventory in
  let steps := [DryWood; TreatWood] in
  let initial_thickness := 20%float in
  let '(mahogany, h) :=
    new (mkWoodItem "Mahogany" initial_thickness 14 false steps) h in
  let inv := addItem inv mahogany in
  h ← processAll inv h;
  item ← h !! mahogany;
  ASSERT_EQ (getThickness item) initial_thickness (
  Some true).

Definition WoodTest_UntreatedWhenMoistureBelowThreshold : option bool :=
  let h : Heap := ∅ in
  let inv := emptyInventory in
  let steps := [ConditionalTreatment TreatWood "MoistureAbove" 15] in
  let '(cedar, h) := new (mkWoodItem "Cedar" 22 12 false steps) h in
  let inv := addItem inv cedar in
  h ← processAll inv h;
  item ← h !! cedar;
  ASSERT_TRUE (negb (isTreated item)) (
  Some true).

(** ** [main] *)

Section Main.

(** What has been written to the output stream. *)
Context {Console : Type}.

(** Modelled from the spec: [RUN_TEST] comes from [test1.h], which is not
    among the sources.  It executes the named case and reports pass or
    fail to the output stream; it does not leave [main]. *)
Variable report : string -> string -> bool -> Console -> Console.

Definition RUN_TEST (group name : string) (test : option bool)
    (out : Console) : option Console :=
  passed ← test; Some (report group name passed out).

(** The body of [main] over the six cases it runs. *)
Definition main_body (t1 t2 t3 t4 t5 t6 : option bool) (out : Console)
    : option (Console * Z) :=
  out ← RUN_TEST "WoodTest" "AddSingleItem" t1 out;
  out ← RUN_TEST "WoodTest" "MultipleItemsCount" t2 out;
  out ← RUN_TEST "WoodTest" "ProcessDrying" t3 out;
  out ← RUN_TEST "WoodTest" "ConditionalTreatment" t4 out;
  out ← RUN_TEST "WoodTest" "ThicknessUnchangedAfterProcessing" t5 out;
  out ← RUN_TEST "WoodTest" "UntreatedWhenMoistureBelowThreshold" t6 out;
  Some (out, 0%Z).

Definition main (out : Console) : option (Console * Z) :=
  main_body WoodTest_AddSingleItem WoodTest_MultipleItemsCount
    WoodTest_ProcessDrying WoodTest_ConditionalTreatment
    WoodTest_ThicknessUnchangedAfterProcessing
    WoodTest_UntreatedWhenMoistureBelowThreshold out.

End Main.

(** ** Shapes of steps *)

Definition is_dry (step : WoodAction) : bool :=
  match step with DryWood => true | _ => false end.

Definition is_treat (step : WoodAction) : bool :=
  match step with TreatWood => true | _ => false end.

(** Steps that are not wrapped in a condition. *)
Definition unconditional (step : WoodAction) : bool :=
  match step with ConditionalTreatment _ _ _ => false | _ => true end.

(** There is a [DryWood] in the step, at the top or under conditions. *)
Fixpoint dries (step : WoodAction) : bool :=
  match step with
  | DryWood => true
  | ConditionalTreatment inner_action _ _ => dries inner_action
  | CutWood _ | TreatWood => false
  end.

(** At moisture [m], the step reaches a [TreatWood]: every condition on the
    way is ["MoistureAbove"] with a threshold below [m]. *)
Fixpoint treats (step : WoodAction) (m : float) : bool :=
  match step with
  | TreatWood => true
  | ConditionalTreatment inner_action condition_type condition_value =>
      String.eqb condition_type "MoistureAbove" && gtb m condition_value
      && treats inner_action m
  | CutWood _ | DryWood => false
  end.

(** ** Tactics *)

(** Case analysis on every comparison of exponents or mantissas in sight. *)
Ltac case_compare :=
  repeat match goal with
  | H : context [Z.compare ?a ?b] |- _ => destruct (Z.compare_spec a b); subst
  | |- context [Z.compare ?a ?b] => destruct (Z.compare_spec a b); subst
  | H : context [Pos.compare_cont Eq ?a ?b] |- _ =>
      change (Pos.compare_cont Eq a b) with (Pos.compare a b) in H;
      destruct (Pos.compare_spec a b); subst
  | |- context [Pos.compare_cont Eq ?a ?b] =>
      change (Pos.compare_cont Eq a b) with (Pos.compare a b);
      destruct (Pos.compare_spec a b); subst
  end.

(** ** Frame lemmas for single actions *)

Lemma perform_type step item : getType (perform step item) = getType item.
Proof.
  revert item; induction step as [len| | |inner IH cond val]; intros item;
    simpl; trivial.
  destruct (_ && _); auto.
Qed.

Lemma perform_thickness step item :
  getThickness (perform step item) = getThickness item.
Proof.
  revert item; induction step as [len| | |inner IH cond val]; intros item;
    simpl; trivial.
  destruct (_ && _); auto.
Qed.

Lemma perform_steps step item :
  processing_steps (perform step item) = processing_steps item.
Proof.
  revert item; induction step as [len| | |inner IH cond val]; intros item;
    simpl; trivial.
  destruct (_ && _); auto.
Qed.

(** ** Binary64 arithmetic

    Rounding and comparison of doubles, from the specification of the
    primitive operations ([mul_spec], [ltb_spec], ...) down to mantissas and
    exponents. *)

Section Binary64.
Local Open Scope Z_scope.

(** *** Shifting a mantissa to the right *)

Lemma iter_pos_comm {A} (f : A -> A) p x :
  SpecFloat.iter_pos f p (f x) = f (SpecFloat.iter_pos f p x).
Proof.
  revert x; induction p as [p IH|p IH|]; intros x; simpl; trivial;
    now rewrite !IH.
Qed.

Lemma iter_pos_succ {A} (f : A -> A) p x :
  SpecFloat.iter_pos f (Pos.succ p) x = f (SpecFloat.iter_pos f p x).
Proof.
  revert x; induction p as [p IH|p IH|]; intros x; simpl; trivial.
  - now rewrite !IH, !iter_pos_comm.
  - now rewrite !iter_pos_comm.
Qed.

(** One shift halves a non-negative mantissa, [p] shifts divide it by
    [2^p]. *)
Lemma shr_1_m mrs : 0 <= shr_m mrs -> shr_m (shr_1 mrs) = shr_m mrs / 2.
Proof.
  destruct mrs as [m r s]; simpl; intros Hm.
  destruct m as [|[p|p|]|p]; simpl; try lia; trivial.
  - rewrite Pos2Z.inj_xI. apply Z.div_unique with 1; lia.
  - rewrite Pos2Z.inj_xO. apply Z.div_unique with 0; lia.
Qed.

Lemma shr_iter_m p mrs :
  0 <= shr_m mrs -> shr_m (SpecFloat.iter_pos shr_1 p mrs) = shr_m mrs / 2 ^ Zpos p.
Proof.
  intros Hm. induction p as [|p IH] using Pos.peano_ind.
  - simpl SpecFloat.iter_pos. now rewrite shr_1_m.
  - rewrite iter_pos_succ, shr_1_m, IH.
    + rewrite Z.div_div by lia.
      now rewrite Pos2Z.inj_succ, Z.pow_succ_r, (Z.mul_comm 2) by lia.
    + rewrite IH. apply Z.div_pos; lia.
Qed.

(** *** The number of bits of a mantissa *)

Lemma digits2_pos_bounds p :
  2 ^ (Zpos (digits2_pos p) - 1) <= Zpos p < 2 ^ Zpos (digits2_pos p).
Proof.
  induction p as [p IH|p IH|]; simpl digits2_pos; [| |simpl; lia];
    rewrite Pos2Z.inj_succ;
    replace (Z.succ (Zpos (digits2_pos p)) - 1)
      with (Z.succ (Zpos (digits2_pos p) - 1)) by lia;
    rewrite !Z.pow_succ_r by lia;
    revert IH;
    generalize (2 ^ (Zpos (digits2_pos p) - 1)) (2 ^ Zpos (digits2_pos p));
    intros lo hi IH; lia.
Qed.

Lemma digits2_pos_le p k : Zpos p < 2 ^ k -> Zpos (digits2_pos p) <= k.
Proof.
  intros H. destruct (digits2_pos_bounds p) as [Hlo _].
  destruct (Z.le_gt_cases (Zpos (digits2_pos p)) k) as [|Hgt]; trivial.
  assert (2 ^ k <= 2 ^ (Zpos (digits2_pos p) - 1)) by (apply Z.pow_le_mono_r; lia).
  lia.
Qed.

Lemma digits2_pos_ge p k : 2 ^ (k - 1) <= Zpos p -> k <= Zpos (digits2_pos p).
Proof.
  intros H. destruct (digits2_pos_bounds p) as [_ Hhi].
  destruct (Z.le_gt_cases k (Zpos (digits2_pos p))) as [|Hgt]; trivial.
  assert (2 ^ Zpos (digits2_pos p) <= 2 ^ (k - 1)) by (apply Z.pow_le_mono_r; lia).
  lia.
Qed.

Lemma round_nearest_even_bounds m l :
  m <= round_nearest_even m l <= m + 1.
Proof.
  destruct l as [|[]]; simpl; try lia. destruct (Z.even m); lia.
Qed.


(** *** Valid doubles *)

Lemma Prim2SF_c_0_8 : Prim2SF c_0_8 = SF_0_8.
Proof. vm_compute. reflexivity. Qed.

(** A valid finite double has a mantissa below [2^53] and an exponent
    between -1074 and 971; it is subnormal (exponent -1074) or its mantissa
    has exactly 53 bits. *)
Lemma bounded_inv m e :
  bounded prec emax m e = true ->
  Zpos m < 2 ^ 53 /\ -1074 <= e <= 971 /\ (e = -1074 \/ 2 ^ 52 <= Zpos m).
Proof.
  unfold bounded, canonical_mantissa, fexp, SpecFloat.emin, prec, emax.
  rewrite andb_true_iff, Z.eqb_eq, Z.leb_le. intros [Hc He].
  destruct (digits2_pos_bounds m) as [Hlo Hhi].
  assert (Hd : Zpos (digits2_pos m) <= 53) by lia.
  assert (2 ^ Zpos (digits2_pos m) <= 2 ^ 53) by (apply Z.pow_le_mono_r; lia).
  split; [lia|]. split; [lia|].
  destruct (Z.eq_dec e (-1074)) as [|Hne]; [now left|right].
  assert (Hd53 : Zpos (digits2_pos m) = 53) by lia.
  now rewrite Hd53 in Hlo.
Qed.

Lemma shr_nonpos mrs e n : n <= 0 -> shr mrs e n = (mrs, e).
Proof. destruct n; trivial; lia. Qed.

Lemma shr_pos_m mrs e n :
  0 < n -> 0 <= shr_m mrs ->
  shr_m (fst (shr mrs e n)) = shr_m mrs / 2 ^ n /\ snd (shr mrs e n) = e + n.
Proof.
  destruct n as [|p|p]; try lia. intros _ Hm; simpl. now rewrite shr_iter_m.
Qed.


(** *** Rounding the product

    A rounded mantissa below [2^53] is the mantissa of the result; the
    mantissa [2^53] becomes [2^52] with the exponent one higher. *)
Lemma round_finish_fits s r e :
  -1074 <= e <= 971 -> 0 <= r < 2 ^ 53 ->
  round_finish s r e =
  match r with
  | Z0 => S754_zero s
  | Zpos m => S754_finite s m e
  | Zneg _ => S754_nan
  end.
Proof.
  intros He Hr. unfold round_finish, shr_fexp.
  rewrite shr_nonpos.
  - simpl. destruct r as [|m|m]; trivial.
    replace (e <=? emax - prec) with true; trivial.
    symmetry; apply Z.leb_le. unfold emax, prec. lia.
  - unfold fexp, SpecFloat.emin, prec, emax.
    destruct r as [|m|m]; simpl Zdigits2; try lia.
    assert (Zpos (digits2_pos m) <= 53) by (apply digits2_pos_le; lia).
    lia.
Qed.

Lemma round_finish_carry s e :
  -1075 <= e <= 970 ->
  round_finish s (2 ^ 53) e = S754_finite s (2 ^ 52) (e + 1).
Proof.
  intros He. unfold round_finish, shr_fexp.
  replace (fexp prec emax (Zdigits2 (2 ^ 53) + e) - e) with 1.
  - simpl. replace (e + 1 <=? emax - prec) with true; trivial.
    symmetry; apply Z.leb_le. unfold emax, prec. lia.
  - unfold fexp, SpecFloat.emin, prec, emax. simpl Zdigits2. lia.
Qed.

Lemma binary_round_aux_unfold s m e :
  binary_round_aux prec emax s m e loc_Exact =
  round_finish s
    (round_nearest_even
       (shr_m (fst (shr_fexp prec emax m e loc_Exact)))
       (loc_of_shr_record (fst (shr_fexp prec emax m e loc_Exact))))
    (snd (shr_fexp prec emax m e loc_Exact)).
Proof.
  unfold binary_round_aux, round_finish.
  destruct (shr_fexp prec emax m e loc_Exact) as [mrs e']. reflexivity.
Qed.


(** The product of a positive double [mx * 2^ex] with [0.8] is [+0] or a
    positive double that has a smaller exponent, or the same exponent and a
    mantissa that is not larger.  The product is exact on 106 bits; it is
    shifted by 53 bits, or by 52 when it is below [2^105] and the result is
    normal; rounding then adds at most one to the mantissa. *)
Lemma SFmul_0_8_finite mx ex :
  bounded prec emax mx ex = true ->
  SF64mul (S754_finite false mx ex) SF_0_8 = S754_zero false \/
  exists m e,
    SF64mul (S754_finite false mx ex) SF_0_8 = S754_finite false m e /\
    (e < ex \/ e = ex /\ Zpos m <= Zpos mx).
Proof.
  intros Hb. destruct (bounded_inv _ _ Hb) as (Hm & He & Hn).
  unfold SF64mul, SFmul, SF_0_8; simpl xorb.
  rewrite binary_round_aux_unfold. unfold shr_fexp.
  set (P := Zpos (mx * 7205759403792794)).
  assert (HP : P = Zpos mx * 7205759403792794) by apply Pos2Z.inj_mul.
  set (n1 := fexp prec emax (Zdigits2 P + (ex + -53)) - (ex + -53)).
  assert (Hn1 : n1 = 53 \/
                n1 = 52 /\ 2 ^ 104 <= P < 2 ^ 105 /\ -1073 <= ex).
  { unfold n1, fexp, SpecFloat.emin, prec, emax, P; simpl Zdigits2.
    fold P.
    pose proof (digits2_pos_bounds (mx * 7205759403792794)) as HdP.
    fold P in HdP.
    assert (Zpos (digits2_pos (mx * 7205759403792794)) <= 106)
      by (apply digits2_pos_le; fold P; lia).
    destruct Hn as [->|Hn]; [left; lia|].
    assert (105 <= Zpos (digits2_pos (mx * 7205759403792794)))
      by (apply digits2_pos_ge; fold P; lia).
    destruct (Z.eq_dec (Zpos (digits2_pos (mx * 7205759403792794))) 106)
      as [Hd|Hd]; [left; lia|].
    assert (Hd' : Zpos (digits2_pos (mx * 7205759403792794)) = 105) by lia.
    rewrite Hd' in HdP.
    destruct (Z.eq_dec ex (-1074)); [left; lia|right].
    change (105 - 1) with 104 in HdP. lia. }
  destruct (shr_pos_m {| shr_m := P; shr_r := false; shr_s := false |}
              (ex + -53) n1) as [Hm1 He1]; [lia|simpl; lia|].
  simpl shr_record_of_loc. rewrite Hm1, He1. simpl shr_m.
  pose proof (round_nearest_even_bounds (P / 2 ^ n1)
     (loc_of_shr_record
        (fst (shr {| shr_m := P; shr_r := false; shr_s := false |}
                (ex + -53) n1)))) as Hr.
  set (r := round_nearest_even _ _) in *.
  destruct Hn1 as [Hn1|(Hn1 & HP' & He')]; rewrite Hn1 in *.
  - assert (0 <= P / 2 ^ 53 < Zpos mx)
      by (Z.to_euclidean_division_equations; lia).
    rewrite round_finish_fits by lia.
    destruct r as [|m|m]; [now left|right|lia].
    exists m, (ex + -53 + 53). split; trivial. right. lia.
  - assert (2 ^ 52 <= P / 2 ^ 52 < 2 ^ 53)
      by (Z.to_euclidean_division_equations; lia).
    right. destruct (Z.eq_dec r (2 ^ 53)) as [Hr53|Hr53].
    + rewrite Hr53, round_finish_carry by lia.
      exists (2 ^ 52)%positive, (ex + -53 + 52 + 1). split; trivial.
      right. destruct Hn as [|Hn]; lia.
    + rewrite round_finish_fits by lia.
      destruct r as [|m|m]; try lia.
      exists m, (ex + -53 + 52). split; trivial. left. lia.
Qed.


(** *** Comparisons *)

Lemma SFleb_trans a b c :
  SFleb a b = true -> SFleb b c = true -> SFleb a c = true.
Proof.
  unfold SFleb, SFcompare.
  destruct a as [sa|sa| |sa ma ea], b as [sb|sb| |sb mb eb],
    c as [sc|sc| |sc mc ec];
    try destruct sa; try destruct sb; try destruct sc;
    try discriminate; trivial;
    case_compare; simpl; trivial; try discriminate; lia.
Qed.

Lemma SFeqb_not_SFltb a b : SFeqb a b = true -> SFltb b a = false.
Proof.
  unfold SFeqb, SFltb, SFcompare.
  destruct a as [sa|sa| |sa ma ea], b as [sb|sb| |sb mb eb];
    try destruct sa; try destruct sb; try discriminate; trivial;
    case_compare; simpl; trivial; try discriminate; lia.
Qed.

Lemma SFmul_comm x y : SF64mul x y = SF64mul y x.
Proof.
  unfold SF64mul, SFmul.
  destruct x as [sx|sx| |sx mx ex], y as [sy|sy| |sy my ey];
    rewrite ?(xorb_comm sx sy); trivial.
  now rewrite (Pos.mul_comm mx my), (Z.add_comm ex ey).
Qed.

(** For [0 <= x], zeros and [+infinity] included: [0 <= x * 0.8 <= x]. *)
Lemma SFleb_mul_0_8 x :
  valid_binary x = true -> SFleb (S754_zero false) x = true ->
  SFleb (S754_zero false) (SF64mul x SF_0_8) = true /\
  SFleb (SF64mul x SF_0_8) x = true.
Proof.
  destruct x as [s|s| |s m e]; try discriminate.
  - destruct s; intros _ _; split; reflexivity.
  - destruct s; try discriminate. intros _ _; split; reflexivity.
  - destruct s; try discriminate. simpl valid_binary. intros Hb _.
    destruct (SFmul_0_8_finite m e Hb) as [->|(m' & e' & -> & Hle)].
    + split; reflexivity.
    + split; [reflexivity|].
      unfold SFleb, SFcompare. destruct Hle as [Hlt|[-> Hle]].
      * now rewrite (proj2 (Z.compare_lt_iff e' e) Hlt).
      * rewrite Z.compare_refl.
        change (Pos.compare_cont Eq m' m) with (Pos.compare m' m).
        destruct (Pos.compare_spec m' m); trivial. lia.
Qed.

(** *** The same facts on doubles *)

Local Open Scope float_scope.

Lemma mul_comm (x y : float) : x * y = y * x.
Proof. apply Prim2SF_inj. rewrite !FloatAxioms.mul_spec. apply SFmul_comm. Qed.

Lemma leb_trans (x y z : float) :
  (x <=? y) = true -> (y <=? z) = true -> (x <=? z) = true.
Proof. rewrite !FloatAxioms.leb_spec. apply SFleb_trans. Qed.

Lemma leb_refl_nonneg (x : float) : (0 <=? x) = true -> (x <=? x) = true.
Proof.
  rewrite !FloatAxioms.leb_spec. unfold SFleb, SFcompare.
  destruct (Prim2SF x) as [[]|[]| |[] m e]; trivial; try discriminate.
  intros _. now rewrite Z.compare_refl, Pos.compare_cont_refl.
Qed.

Lemma eqb_not_ltb (x y : float) : (x =? y) = true -> (y <? x) = false.
Proof. rewrite FloatAxioms.eqb_spec, FloatAxioms.ltb_spec. apply SFeqb_not_SFltb. Qed.

Lemma mul_0_8_bounds (m : float) :
  (0 <=? m) = true ->
  (0 <=? m * c_0_8) = true /\ (m * c_0_8 <=? m) = true.
Proof.
  rewrite !FloatAxioms.leb_spec, FloatAxioms.mul_spec, Prim2SF_c_0_8.
  change (Prim2SF 0) with (S754_zero false).
  apply SFleb_mul_0_8, Prim2SF_valid.
Qed.

End Binary64.

(** ** Single actions *)

Lemma perform_DryWood_iter n item :
  Nat.iter n (perform DryWood) item =
  setMoisture
    (Nat.iter n (fun m => (c_0_8 * m)%float) (getMoisture item)) item.
Proof.
  induction n as [|n IH].
  - now destruct item.
  - rewrite !Nat.iter_succ, IH. simpl.
    unfold setMoisture, getMoisture; simpl. now rewrite mul_comm.
Qed.

Lemma perform_treated step item :
  isTreated item = true -> isTreated (perform step item) = true.
Proof.
  revert item; induction step as [len| | |inner IH cond val]; intros item H;
    simpl; trivial.
  destruct (_ && _); auto.
Qed.

Lemma perform_moisture step item :
  (0 <=? getMoisture item)%float = true ->
  (0 <=? getMoisture (perform step item))%float = true /\
  (getMoisture (perform step item) <=? getMoisture item)%float = true.
Proof.
  revert item; induction step as [len| | |inner IH cond val]; intros item H;
    simpl.
  - split; [trivial|now apply leb_refl_nonneg].
  - now apply mul_0_8_bounds.
  - split; [trivial|now apply leb_refl_nonneg].
  - destruct (_ && _); [now apply IH|].
    split; [trivial|now apply leb_refl_nonneg].
Qed.

(** ** The processing loop *)

Lemma for_each_fold_left {S : Type} (visit : WoodAction -> S -> S) steps s :
  for_each visit steps s = fold_left (fun acc step => visit step acc) steps s.
Proof. revert s; induction steps as [|step rest IH]; intros s; simpl; auto. Qed.

Lemma for_each_logged steps log item :
  for_each perform_logged steps (log, item) =
  ((log ++ steps)%list, for_each perform steps item).
Proof.
  revert log item; induction steps as [|step rest IH]; intros log item; simpl.
  - now rewrite app_nil_r.
  - unfold perform_logged at 2; simpl. rewrite IH.
    now rewrite <- app_assoc.
Qed.

(** An invariant of single actions is an invariant of the loop. *)
Lemma for_each_invariant (P : WoodItem -> Prop) steps item :
  (forall step it, P it -> P (perform step it)) ->
  P item -> P (for_each perform steps item).
Proof.
  intros Hstep. revert item.
  induction steps as [|step rest IH]; intros item H; simpl; auto.
Qed.

Lemma process_steps item :
  processing_steps (process item) = processing_steps item.
Proof.
  unfold process.
  apply (for_each_invariant
           (fun it => processing_steps it = processing_steps item)); trivial.
  intros step it H. now rewrite perform_steps.
Qed.

Lemma process_thickness item :
  getThickness (process item) = getThickness item.
Proof.
  unfold process.
  apply (for_each_invariant
           (fun it => getThickness it = getThickness item)); trivial.
  intros step it H. now rewrite perform_thickness.
Qed.

(** ** The inventory *)

Lemma addItem_fold ps inv :
  getItems (fold_left addItem ps inv) = (getItems inv ++ ps)%list.
Proof.
  revert inv; induction ps as [|p ps IH]; intros inv; simpl.
  - now rewrite app_nil_r.
  - rewrite IH. simpl. now rewrite <- app_assoc.
Qed.

(** ** Properties of the actions *)

(** C1: [ConditionalTreatment] wrapping [TreatWood] with condition
    ["MoistureAbove"] and threshold [t] sets [is_treated] to [true] exactly
    when the moisture is strictly greater than [t], and leaves the item as
    it is otherwise; in particular a moisture equal to [t] does not
    trigger. *)
Theorem ConditionalTreatment_MoistureAbove_strict item t :
  let item' := perform (ConditionalTreatment TreatWood "MoistureAbove" t) item in
  (gtb (getMoisture item) t = true -> item' = setTreated true item) /\
  (gtb (getMoisture item) t = false -> item' = item) /\
  ((getMoisture item =? t)%float = true -> item' = item) /\
  isTreated item' = gtb (getMoisture item) t || isTreated item /\
  (isTreated item = false ->
   (isTreated item' = true <-> gtb (getMoisture item) t = true)).
Proof.
  simpl. repeat split.
  - now intros ->.
  - now intros ->.
  - intros Heq. unfold gtb. now rewrite (eqb_not_ltb _ _ Heq).
  - now destruct (gtb _ _).
  - destruct (gtb _ _); simpl; [trivial|congruence].
  - now intros ->.
Qed.

(** C2 (amended): one [DryWood] step sets the moisture to the double
    product [0.8 * m]; [n] steps in a row give the [n]-fold product
    [0.8 * (... * (0.8 * m))], rounded to a double at each step; type,
    thickness, treatment flag and steps are not changed. *)
Theorem DryWood_compounds item n :
  getMoisture (perform DryWood item) = (c_0_8 * getMoisture item)%float /\
  getMoisture (Nat.iter n (perform DryWood) item) =
    Nat.iter n (fun m => (c_0_8 * m)%float) (getMoisture item) /\
  getType (Nat.iter n (perform DryWood) item) = getType item /\
  getThickness (Nat.iter n (perform DryWood) item) = getThickness item /\
  isTreated (Nat.iter n (perform DryWood) item) = isTreated item /\
  processing_steps (Nat.iter n (perform DryWood) item) = processing_steps item.
Proof.
  split; [apply mul_comm|]. now rewrite perform_DryWood_iter.
Qed.

(** C2 as stated fails: after two [DryWood] steps the moisture is not
    [m * 0.8^2], whether the right-hand side is read as the exact number, as
    a double product with the double nearest to [0.64], or as a double
    product with [0.8 * 0.8] computed in doubles. *)
Lemma DryWood_twice_not_power :
  let teak := mkWoodItem "Teak" 15 15 false [DryWood] in
  let pine := mkWoodItem "Pine" 20 5 false [DryWood] in
  ~ exactly (getMoisture (Nat.iter 2 (perform DryWood) teak))
            (15 * (4 # 5) ^ 2) /\
  (getMoisture (Nat.iter 2 (perform DryWood) teak)
     =? 15 * 0x1.47ae147ae147bp-1)%float = false /\
  (getMoisture (Nat.iter 2 (perform DryWood) pine)
     =? 5 * pow_0_8 2)%float = false.
Proof.
  repeat split; try reflexivity.
  vm_compute. discriminate.
Qed.

(** C7: [TreatWood] sets [is_treated] to [true] whatever it was, a second
    application changes nothing more, and no other field is touched. *)
Theorem TreatWood_sets_and_idempotent item :
  isTreated (perform TreatWood item) = true /\
  perform TreatWood (perform TreatWood item) = perform TreatWood item /\
  getType (perform TreatWood item) = getType item /\
  getThickness (perform TreatWood item) = getThickness item /\
  getMoisture (perform TreatWood item) = getMoisture item /\
  processing_steps (perform TreatWood item) = processing_steps item.
Proof. repeat split. Qed.

(** C6: a [ConditionalTreatment] whose condition is any string other than
    ["MoistureAbove"] returns the item as it received it, whatever it wraps
    and whatever the threshold; [perform] has no error result. *)
Theorem ConditionalTreatment_unrecognized_noop inner cond val item :
  cond <> "MoistureAbove" ->
  perform (ConditionalTreatment inner cond val) item = item.
Proof.
  intros Hne. simpl.
  destruct (String.eqb_spec cond "MoistureAbove") as [Heq|_]; [easy|trivial].
Qed.

Lemma ConditionalTreatment_unrecognized_noop_witness :
  let walnut := mkWoodItem "Walnut" 18 12 false [] in
  perform (ConditionalTreatment TreatWood "MoistureBelow" 10) walnut = walnut.
Proof.
  apply ConditionalTreatment_unrecognized_noop. discriminate.
Defined.

(** ** Properties of [process] *)

(** C3: an item constructed with a given thickness has that thickness after
    any number of calls of [process], whatever its steps are; no single
    action changes the thickness. *)
Theorem process_preserves_thickness t thick moisture treated steps n :
  getThickness
    (Nat.iter n process (mkWoodItem t thick moisture treated steps)) = thick /\
  forall step item, getThickness (perform step item) = getThickness item.
Proof.
  split; [|apply perform_thickness].
  induction n as [|n IH]; trivial.
  now rewrite Nat.iter_succ, process_thickness.
Qed.

(** C5: a call of [process] performs every step of the item once, in the
    order of the vector and up to its end, and the item it leaves is the
    left-to-right fold of [perform] over the steps; the steps themselves are
    the same for the next call. *)
Theorem process_applies_each_step_once_in_order item :
  process_logged item = (processing_steps item, process item) /\
  process item =
    fold_left (fun it step => perform step it) (processing_steps item) item /\
  processing_steps (process item) = processing_steps item.
Proof.
  split; [|split].
  - unfold process_logged. now rewrite for_each_logged.
  - apply for_each_fold_left.
  - apply process_steps.
Qed.

(** C9: an item that is treated before [process] is treated after it. *)
Theorem process_treated_monotone item :
  isTreated item = true -> isTreated (process item) = true.
Proof.
  intros H. unfold process.
  apply (for_each_invariant (fun it => isTreated it = true)); trivial.
  intros step it. apply perform_treated.
Qed.

Lemma process_treated_monotone_witness :
  let maple :=
    mkWoodItem "Maple" 30 8 true
      [DryWood; CutWood 2.5; ConditionalTreatment DryWood "MoistureAbove" 5] in
  isTreated maple = true /\ isTreated (process maple) = true.
Proof.
  split; [reflexivity|].
  apply process_treated_monotone. reflexivity.
Defined.

(** C10: for an item whose moisture is non-negative, the moisture after
    [process] is less than or equal to the moisture before. *)
Theorem process_moisture_nonincreasing item :
  (0 <=? getMoisture item)%float = true ->
  (getMoisture (process item) <=? getMoisture item)%float = true.
Proof.
  intros H. unfold process.
  apply (for_each_invariant
           (fun it => (0 <=? getMoisture it)%float = true /\
                      (getMoisture it <=? getMoisture item)%float = true)).
  - intros step it [H0 Hle].
    destruct (perform_moisture step it H0) as [H0' Hle'].
    split; [trivial|]. now apply leb_trans with (getMoisture it).
  - split; [trivial|now apply leb_refl_nonneg].
Qed.

Lemma process_moisture_nonincreasing_witness :
  let mahogany := mkWoodItem "Mahogany" 20 14 false [DryWood; TreatWood] in
  (0 <=? getMoisture mahogany)%float = true /\
  (getMoisture (process mahogany) <=? getMoisture mahogany)%float = true.
Proof.
  split; [reflexivity|].
  apply process_moisture_nonincreasing. reflexivity.
Defined.

(** ** Properties of the inventory *)

(** C4: after adding the items [ps] one by one to an empty inventory,
    [getItems] is [ps]: it has as many elements as there were calls and its
    [i]-th element is the [i]-th item added, duplicates included. *)
Theorem addItem_preserves_order_and_count (ps : list positive) :
  let inv := fold_left addItem ps emptyInventory in
  getItems inv = ps /\
  length (getItems inv) = length ps /\
  forall i : nat, getItems inv !! i = ps !! i.
Proof.
  simpl. rewrite addItem_fold. simpl. auto.
Qed.

(** ** The exit code *)

(** C8: whatever the six test cases return, pass or fail, [main] returns
    0; and whenever [main] returns at all, it returns 0. *)
Theorem main_returns_zero {Console : Type}
    (report : string -> string -> bool -> Console -> Console) (out : Console) :
  (forall b1 b2 b3 b4 b5 b6 : bool,
     snd <$> main_body report (Some b1) (Some b2) (Some b3) (Some b4)
               (Some b5) (Some b6) out = Some 0%Z) /\
  (forall (t1 t2 t3 t4 t5 t6 : option bool) (r : Console * Z),
     main_body report t1 t2 t3 t4 t5 t6 out = Some r -> snd r = 0%Z).
Proof.
  split; [reflexivity|].
  intros t1 t2 t3 t4 t5 t6 r. unfold main_body, RUN_TEST.
  destruct t1, t2, t3, t4, t5, t6; simpl; try discriminate.
  now intros [= <-].
Qed.

Lemma main_exit_code {Console : Type}
    (report : string -> string -> bool -> Console -> Console) (out : Console) :
  snd <$> main report out = Some 0%Z.
Proof. reflexivity. Qed.

(** ** The scenarios of the test cases *)

Example AddSingleItem_passes : WoodTest_AddSingleItem = Some true.
Proof. vm_compute. reflexivity. Qed.

Example MultipleItemsCount_passes : WoodTest_MultipleItemsCount = Some true.
Proof. vm_compute. reflexivity. Qed.

Example ProcessDrying_passes : WoodTest_ProcessDrying = Some true.
Proof. vm_compute. reflexivity. Qed.

Example ConditionalTreatment_passes :
  WoodTest_ConditionalTreatment = Some true.
Proof. vm_compute. reflexivity. Qed.

Example ThicknessUnchangedAfterProcessing_passes :
  WoodTest_ThicknessUnchangedAfterProcessing = Some true.
Proof. vm_compute. reflexivity. Qed.

Example UntreatedWhenMoistureBelowThreshold_passes :
  WoodTest_UntreatedWhenMoistureBelowThreshold = Some true.
Proof. vm_compute. reflexivity. Qed.

(** Teak at moisture 15 dries to exactly 12. *)
Example teak_dries_to_12 :
  getMoisture (process (mkWoodItem "Teak" 15 15 false [DryWood])) = 12%float.
Proof. reflexivity. Qed.

(** A moisture equal to the threshold does not trigger the treatment, and
    neither does a moisture that is not a number. *)
Example threshold_is_strict :
  isTreated
    (process
       (mkWoodItem "Walnut" 18 10 false
          [ConditionalTreatment TreatWood "MoistureAbove" 10])) = false /\
  isTreated
    (process
       (mkWoodItem "Walnut" 18 nan false
          [ConditionalTreatment TreatWood "MoistureAbove" 10])) = false.
Proof. split; reflexivity. Qed.

(** An item added twice is held twice, and [processAll] processes it once
    for each entry. *)
Example item_added_twice :
  let '(teak, h) := new (mkWoodItem "Teak" 15 15 false [DryWood]) ∅ in
  let inv := addItem (addItem emptyInventory teak) teak in
  getItems inv = [teak; teak] /\
  (h' ← processAll inv h; item ← h' !! teak; Some (getMoisture item)) =
  Some (c_0_8 * (c_0_8 * 15))%float.
Proof. vm_compute. split; reflexivity. Qed.

(** ** Drying, more precisely *)

Section Drying.
Local Open Scope Z_scope.

(** The two ways the product of [mx * 2^ex] with [0.8] is rounded: shifted by
    53 bits, the exponent stays; shifted by 52 bits (normal [mx], product
    below [2^105]), the exponent drops by one. *)
Lemma SFmul_0_8_shift mx ex :
  bounded prec emax mx ex = true ->
  (exists r,
     SF64mul (S754_finite false mx ex) SF_0_8 = round_finish false r ex /\
     Zpos mx * 7205759403792794 / 2 ^ 53 <= r
       <= Zpos mx * 7205759403792794 / 2 ^ 53 + 1) \/
  (exists r,
     SF64mul (S754_finite false mx ex) SF_0_8 = round_finish false r (ex - 1) /\
     -1073 <= ex /\
     2 ^ 104 <= Zpos mx * 7205759403792794 < 2 ^ 105 /\
     Zpos mx * 7205759403792794 / 2 ^ 52 <= r
       <= Zpos mx * 7205759403792794 / 2 ^ 52 + 1).
Proof.
  intros Hb. destruct (bounded_inv _ _ Hb) as (Hm & He & Hn).
  unfold SF64mul, SFmul, SF_0_8; simpl xorb.
  rewrite binary_round_aux_unfold. unfold shr_fexp.
  rewrite <- Pos2Z.inj_mul.
  set (P := Zpos (mx * 7205759403792794)).
  assert (HP : P = Zpos mx * 7205759403792794) by apply Pos2Z.inj_mul.
  set (n1 := fexp prec emax (Zdigits2 P + (ex + -53)) - (ex + -53)).
  assert (Hn1 : n1 = 53 \/
                n1 = 52 /\ 2 ^ 104 <= P < 2 ^ 105 /\ -1073 <= ex).
  { unfold n1, fexp, SpecFloat.emin, prec, emax, P; simpl Zdigits2.
    fold P.
    pose proof (digits2_pos_bounds (mx * 7205759403792794)) as HdP.
    fold P in HdP.
    assert (Zpos (digits2_pos (mx * 7205759403792794)) <= 106)
      by (apply digits2_pos_le; fold P; lia).
    destruct Hn as [->|Hn]; [left; lia|].
    assert (105 <= Zpos (digits2_pos (mx * 7205759403792794)))
      by (apply digits2_pos_ge; fold P; lia).
    destruct (Z.eq_dec (Zpos (digits2_pos (mx * 7205759403792794))) 106)
      as [Hd|Hd]; [left; lia|].
    assert (Hd' : Zpos (digits2_pos (mx * 7205759403792794)) = 105) by lia.
    rewrite Hd' in HdP.
    destruct (Z.eq_dec ex (-1074)); [left; lia|right].
    change (105 - 1) with 104 in HdP. lia. }
  destruct (shr_pos_m {| shr_m := P; shr_r := false; shr_s := false |}
              (ex + -53) n1) as [Hm1 He1]; [lia|simpl; lia|].
  simpl shr_record_of_loc. rewrite Hm1, He1. simpl shr_m.
  pose proof (round_nearest_even_bounds (P / 2 ^ n1)
     (loc_of_shr_record
        (fst (shr {| shr_m := P; shr_r := false; shr_s := false |}
                (ex + -53) n1)))) as Hr.
  set (r := round_nearest_even _ _) in *.
  destruct Hn1 as [Hn1|(Hn1 & HP' & He')]; rewrite Hn1 in *.
  - left. exists r. split; [|exact Hr]. f_equal. lia.
  - right. exists r. repeat split; try lia. f_equal. lia.
Qed.


(** A positive double times [0.8] is a positive double: the product never
    underflows to zero. *)
Lemma SFmul_0_8_pos mx ex :
  bounded prec emax mx ex = true ->
  exists m e, SF64mul (S754_finite false mx ex) SF_0_8 = S754_finite false m e.
Proof.
  intros Hb. destruct (bounded_inv _ _ Hb) as (Hm & He & Hn).
  destruct (Pos.eq_dec mx 1%positive) as [->|Hmx].
  { destruct Hn as [->|Hn]; [|lia]. eexists _, _. vm_compute. reflexivity. }
  assert (2 <= Zpos mx) by lia.
  destruct (SFmul_0_8_shift mx ex Hb) as [(r & -> & Hr)|(r & -> & He' & HP & Hr)].
  - assert (1 <= Zpos mx * 7205759403792794 / 2 ^ 53 < Zpos mx)
      by (Z.to_euclidean_division_equations; lia).
    rewrite round_finish_fits by lia.
    destruct r as [|m|m]; try lia. now exists m, ex.
  - assert (2 ^ 52 <= Zpos mx * 7205759403792794 / 2 ^ 52 < 2 ^ 53)
      by (Z.to_euclidean_division_equations; lia).
    destruct (Z.eq_dec r (2 ^ 53)) as [->|Hr53].
    + rewrite round_finish_carry by lia. now eexists _, _.
    + rewrite round_finish_fits by lia.
      destruct r as [|m|m]; try lia. now exists m, (ex - 1).
Qed.

(** From the mantissa 3 on, the product is strictly smaller. *)
Lemma SFmul_0_8_strict mx ex :
  bounded prec emax mx ex = true -> 3 <= Zpos mx ->
  exists m e,
    SF64mul (S754_finite false mx ex) SF_0_8 = S754_finite false m e /\
    (e < ex \/ e = ex /\ Zpos m < Zpos mx).
Proof.
  intros Hb H3. destruct (bounded_inv _ _ Hb) as (Hm & He & Hn).
  destruct (Z_lt_le_dec (Zpos mx) 6) as [H6|H6].
  { destruct Hn as [->|Hn]; [|lia].
    assert (Hc : mx = 3%positive \/ mx = 4%positive \/ mx = 5%positive)
      by lia.
    destruct Hc as [-> | [-> | ->]]; eexists _, _;
      (split; [vm_compute; reflexivity|right; split; [reflexivity|lia]]). }
  destruct (SFmul_0_8_shift mx ex Hb) as [(r & -> & Hr)|(r & -> & He' & HP & Hr)].
  - assert (1 <= Zpos mx * 7205759403792794 / 2 ^ 53 <= Zpos mx - 2)
      by (Z.to_euclidean_division_equations; lia).
    rewrite round_finish_fits by lia.
    destruct r as [|m|m]; try lia. exists m, ex. split; trivial. right. lia.
  - assert (2 ^ 52 <= Zpos mx * 7205759403792794 / 2 ^ 52 < 2 ^ 53)
      by (Z.to_euclidean_division_equations; lia).
    destruct (Z.eq_dec r (2 ^ 53)) as [->|Hr53].
    + rewrite round_finish_carry by lia.
      exists (2 ^ 52)%positive, (ex - 1 + 1). split; trivial. right.
      split; [lia|].
      assert (2 ^ 53 - 1 <= Zpos mx * 7205759403792794 / 2 ^ 52) by lia.
      Z.to_euclidean_division_equations; lia.
    + rewrite round_finish_fits by lia.
      destruct r as [|m|m]; try lia. exists m, (ex - 1). split; trivial.
      left. lia.
Qed.


Lemma SFleb_SFltb_trans a b c :
  SFleb a b = true -> SFltb b c = true -> SFltb a c = true.
Proof.
  unfold SFleb, SFltb, SFcompare.
  destruct a as [sa|sa| |sa ma ea], b as [sb|sb| |sb mb eb],
    c as [sc|sc| |sc mc ec];
    try destruct sa; try destruct sb; try destruct sc;
    try discriminate; trivial;
    case_compare; simpl; trivial; try discriminate; lia.
Qed.

Lemma SFltb_SFleb a b : SFltb a b = true -> SFleb a b = true.
Proof.
  unfold SFleb, SFltb. destruct (SFcompare a b) as [[]|]; trivial.
Qed.

(** For [0 <= x]: [x * 0.8 < x] exactly when [2^-1073 < x < +infinity]. *)
Lemma SFltb_mul_0_8 x :
  valid_binary x = true -> SFleb (S754_zero false) x = true ->
  SFltb (SF64mul x SF_0_8) x =
  SFltb (S754_finite false 2 (-1074)) x && SFltb x (S754_infinity false).
Proof.
  destruct x as [s|s| |s m e]; try discriminate.
  - destruct s; reflexivity.
  - destruct s; [discriminate|reflexivity].
  - destruct s; [discriminate|]. simpl valid_binary. intros Hb _.
    destruct (bounded_inv _ _ Hb) as (Hm & He & Hn).
    destruct (Z_lt_le_dec (Zpos m) 3) as [H3|H3].
    + destruct Hn as [->|Hn]; [|lia].
      assert (Hc : m = 1%positive \/ m = 2%positive) by lia.
      destruct Hc as [-> | ->]; vm_compute; reflexivity.
    + destruct (SFmul_0_8_strict m e Hb H3) as (m' & e' & -> & Hlt).
      unfold SFltb, SFcompare.
      destruct Hlt as [Hlt|[-> Hlt]]; case_compare; simpl; trivial; lia.
Qed.

(** For [0 < x], [+infinity] included: [0 < x * 0.8]. *)
Lemma SFltb_0_mul_0_8 x :
  valid_binary x = true -> SFltb (S754_zero false) x = true ->
  SFltb (S754_zero false) (SF64mul x SF_0_8) = true.
Proof.
  destruct x as [s|s| |s m e]; try discriminate.
  - destruct s; [discriminate|reflexivity].
  - destruct s; [discriminate|]. simpl valid_binary. intros Hb _.
    now destruct (SFmul_0_8_pos m e Hb) as (m' & e' & ->).
Qed.

Lemma SFeqb_refl_false x : SFeqb x x = false -> x = S754_nan.
Proof.
  unfold SFeqb, SFcompare.
  destruct x as [[]|[]| |[] m e]; trivial; try discriminate;
    now rewrite Z.compare_refl, Pos.compare_cont_refl.
Qed.

Local Open Scope float_scope.

Lemma leb_ltb_trans (x y z : float) :
  (x <=? y) = true -> (y <? z) = true -> (x <? z) = true.
Proof.
  rewrite FloatAxioms.leb_spec, !FloatAxioms.ltb_spec.
  apply SFleb_SFltb_trans.
Qed.

Lemma ltb_leb (x y : float) : (x <? y) = true -> (x <=? y) = true.
Proof.
  rewrite FloatAxioms.leb_spec, FloatAxioms.ltb_spec. apply SFltb_SFleb.
Qed.

Lemma mul_0_8_ltb (m : float) :
  (0 <=? m) = true ->
  (m * c_0_8 <? m) = (0x1p-1073 <? m) && (m <? infinity).
Proof.
  rewrite FloatAxioms.leb_spec, !FloatAxioms.ltb_spec,
    FloatAxioms.mul_spec, Prim2SF_c_0_8.
  change (Prim2SF 0) with (S754_zero false).
  change (Prim2SF 0x1p-1073) with (S754_finite false 2 (-1074)).
  change (Prim2SF infinity) with (S754_infinity false).
  apply SFltb_mul_0_8, Prim2SF_valid.
Qed.

Lemma mul_0_8_pos (m : float) : (0 <? m) = true -> (0 <? m * c_0_8) = true.
Proof.
  rewrite !FloatAxioms.ltb_spec, FloatAxioms.mul_spec, Prim2SF_c_0_8.
  change (Prim2SF 0) with (S754_zero false).
  apply SFltb_0_mul_0_8, Prim2SF_valid.
Qed.

Lemma mul_0_8_nan (m : float) :
  is_nan m = true -> is_nan (m * c_0_8) = true.
Proof.
  unfold is_nan. rewrite !negb_true_iff, !FloatAxioms.eqb_spec,
    FloatAxioms.mul_spec.
  intros H. now rewrite (SFeqb_refl_false _ H).
Qed.

End Drying.

(** ** More on single actions *)

Lemma perform_moisture_pos step item :
  (0 <? getMoisture item)%float = true ->
  (0 <? getMoisture (perform step item))%float = true.
Proof.
  revert item; induction step as [len| | |inner IH cond val]; intros item H;
    simpl; trivial.
  - now apply mul_0_8_pos.
  - destruct (_ && _); auto.
Qed.

Lemma above_min_nonneg (m : float) :
  (0x1p-1073 <? m)%float = true -> (0 <=? m)%float = true.
Proof.
  intros H. apply leb_trans with 0x1p-1073%float; [reflexivity|].
  now apply ltb_leb.
Qed.

Lemma perform_DryWood_strict item :
  (0x1p-1073 <? getMoisture item)%float = true ->
  (getMoisture item <? infinity)%float = true ->
  (getMoisture (perform DryWood item) <? getMoisture item)%float = true.
Proof.
  intros Hlo Hhi. simpl. unfold getMoisture at 1; simpl.
  rewrite mul_0_8_ltb by now apply above_min_nonneg.
  unfold getMoisture in *. now rewrite Hlo, Hhi.
Qed.

(** In the range where drying is strict, a step leaves the moisture as it
    is or makes it strictly smaller. *)
Lemma perform_moisture_cases step item :
  (0x1p-1073 <? getMoisture item)%float = true ->
  (getMoisture item <? infinity)%float = true ->
  getMoisture (perform step item) = getMoisture item \/
  (getMoisture (perform step item) <? getMoisture item)%float = true.
Proof.
  revert item; induction step as [len| | |inner IH cond val];
    intros item Hlo Hhi; simpl; auto.
  - right. now apply perform_DryWood_strict.
  - destruct (_ && _); auto.
Qed.

Lemma perform_nan step item :
  is_nan (getMoisture item) = true ->
  is_nan (getMoisture (perform step item)) = true.
Proof.
  revert item; induction step as [len| | |inner IH cond val]; intros item H;
    simpl; trivial.
  - now apply mul_0_8_nan.
  - destruct (_ && _); auto.
Qed.

Lemma gtb_nan (m t : float) : is_nan m = true -> gtb m t = false.
Proof.
  unfold is_nan, gtb.
  rewrite negb_true_iff, FloatAxioms.eqb_spec, FloatAxioms.ltb_spec.
  intros H. rewrite (SFeqb_refl_false _ H).
  unfold SFltb, SFcompare. now destruct (Prim2SF t).
Qed.

Lemma perform_unconditional_comm a b item :
  unconditional a = true -> unconditional b = true ->
  perform a (perform b item) = perform b (perform a item).
Proof. destruct a, b; try discriminate; reflexivity. Qed.

Lemma perform_dry_free step item :
  dries step = false ->
  perform step item =
  if treats step (getMoisture item) then setTreated true item else item.
Proof.
  revert item; induction step as [len| | |inner IH cond val]; intros item H;
    simpl in *; trivial; try discriminate.
  destruct (String.eqb cond "MoistureAbove" && gtb (getMoisture item) val);
    simpl; auto.
Qed.

(** ** More on the loop *)

Lemma for_each_app {S : Type} (visit : WoodAction -> S -> S) s1 s2 s :
  for_each visit (s1 ++ s2) s = for_each visit s2 (for_each visit s1 s).
Proof. revert s; induction s1 as [|step rest IH]; intros s; simpl; auto. Qed.

Lemma for_each_moisture steps item :
  (0 <=? getMoisture item)%float = true ->
  (0 <=? getMoisture (for_each perform steps item))%float = true /\
  (getMoisture (for_each perform steps item) <=? getMoisture item)%float = true.
Proof.
  intros H.
  apply (for_each_invariant
           (fun it => (0 <=? getMoisture it)%float = true /\
                      (getMoisture it <=? getMoisture item)%float = true)).
  - intros step it [H0 Hle].
    destruct (perform_moisture step it H0) as [H0' Hle'].
    split; [trivial|]. now apply leb_trans with (getMoisture it).
  - split; [trivial|now apply leb_refl_nonneg].
Qed.

Lemma for_each_treated steps item :
  isTreated item = true -> isTreated (for_each perform steps item) = true.
Proof.
  intros H. apply (for_each_invariant (fun it => isTreated it = true)); trivial.
  intros step it. apply perform_treated.
Qed.

Lemma for_each_strict steps item :
  In DryWood steps ->
  (0x1p-1073 <? getMoisture item)%float = true ->
  (getMoisture item <? infinity)%float = true ->
  (getMoisture (for_each perform steps item) <? getMoisture item)%float = true.
Proof.
  revert item; induction steps as [|step rest IH]; intros item Hin Hlo Hhi;
    [destruct Hin|].
  simpl for_each.
  pose proof (above_min_nonneg _ Hlo) as H0.
  destruct (perform_moisture step item H0) as [H0' _].
  destruct (for_each_moisture rest _ H0') as [_ Hle].
  assert (Hcases : In DryWood rest /\
                   getMoisture (perform step item) = getMoisture item \/
                   (getMoisture (perform step item) <? getMoisture item)%float
                   = true).
  { destruct Hin as [->|Hin].
    - right. now apply perform_DryWood_strict.
    - destruct (perform_moisture_cases step item Hlo Hhi); auto. }
  destruct Hcases as [[Hin' Heq]|Hlt].
  - rewrite <- Heq. apply IH; trivial; now rewrite Heq.
  - now apply leb_ltb_trans with (getMoisture (perform step item)).
Qed.

Lemma process_type item : getType (process item) = getType item.
Proof.
  unfold process.
  apply (for_each_invariant (fun it => getType it = getType item)); trivial.
  intros step it H. now rewrite perform_type.
Qed.

Lemma for_each_TreatWood steps item :
  In TreatWood steps -> isTreated (for_each perform steps item) = true.
Proof.
  revert item; induction steps as [|step rest IH]; intros item Hin;
    [destruct Hin|].
  destruct Hin as [->|Hin]; simpl; [now apply for_each_treated|auto].
Qed.

(** What a run of unconditional steps does: one product per [DryWood], and
    the flag is set if there is a [TreatWood]. *)
Lemma for_each_unconditional steps item :
  Forall (fun step => unconditional step = true) steps ->
  for_each perform steps item =
  setTreated (isTreated item || existsb is_treat steps)
    (setMoisture
       (Nat.iter (length (List.filter is_dry steps))
          (fun m => (m * c_0_8)%float) (getMoisture item))
       item).
Proof.
  intros Hu. revert item.
  induction Hu as [|step rest Hstep _ IH]; intros item.
  - simpl. rewrite orb_false_r. now destruct item.
  - simpl for_each. rewrite IH.
    destruct step; try discriminate; destruct item as [t th m tr st].
    + reflexivity.
    + change (List.filter is_dry (DryWood :: rest))
        with (DryWood :: List.filter is_dry rest).
      change (length (DryWood :: List.filter is_dry rest))
        with (S (length (List.filter is_dry rest))).
      now rewrite Nat.iter_succ_r.
    + unfold setTreated, isTreated; simpl. now rewrite orb_true_r.
Qed.

Lemma Permutation_count_dry steps steps' :
  Permutation steps steps' ->
  length (List.filter is_dry steps) = length (List.filter is_dry steps').
Proof.
  induction 1 as [|x l l' _ IH|x y l|l l' l'' _ IH1 _ IH2]; simpl; trivial.
  - destruct (is_dry x); simpl; auto.
  - now destruct (is_dry x), (is_dry y).
  - congruence.
Qed.

Lemma Permutation_exists_treat steps steps' :
  Permutation steps steps' ->
  existsb is_treat steps = existsb is_treat steps'.
Proof.
  induction 1 as [|x l l' _ IH|x y l|l l' l'' _ IH1 _ IH2]; simpl; trivial.
  - now rewrite IH.
  - now destruct (is_treat x), (is_treat y).
  - congruence.
Qed.

(** What a run of steps without [DryWood] does: nothing, or it sets the
    flag, and which of the two depends on the moisture only. *)
Lemma for_each_dry_free steps item :
  Forall (fun step => dries step = false) steps ->
  for_each perform steps item =
  if existsb (fun step => treats step (getMoisture item)) steps
  then setTreated true item else item.
Proof.
  intros Hd. revert item.
  induction Hd as [|step rest Hstep _ IH]; intros item; trivial.
  simpl for_each. rewrite perform_dry_free by trivial. simpl existsb.
  destruct (treats step (getMoisture item)); simpl; [|apply IH].
  rewrite IH. now destruct (existsb _ rest).
Qed.

(** ** Processing a whole inventory *)

Lemma processAll_loop_lookup (ps : list positive) (h : gmap positive WoodItem) :
  Forall (fun p => is_Some (h !! p)) ps ->
  exists h',
    processAll_loop ps h = Some h' /\
    forall q,
      h' !! q = Nat.iter (count_occ Pos.eq_dec ps q) process <$> h !! q.
Proof.
  revert h; induction ps as [|p rest IH]; intros h Hall.
  - exists h. split; trivial. intros q. simpl. now destruct (h !! q).
  - inversion Hall as [|? ? [item Hp] Hrest]; subst.
    simpl processAll_loop. unfold process_at. rewrite Hp.
    destruct (IH (<[p := process item]> h)) as (h' & Hrun & Hlook).
    { eapply Forall_impl; [exact Hrest|]. intros q [it Hq]. simpl.
      destruct (decide (p = q)) as [->|Hne].
      - rewrite lookup_insert_eq. eauto.
      - rewrite lookup_insert_ne by trivial. eauto. }
    exists h'. split; trivial. intros q. rewrite Hlook. simpl count_occ.
    destruct (Pos.eq_dec p q) as [->|Hne].
    + rewrite lookup_insert_eq, Hp. unfold fmap, option_fmap, option_map.
      now rewrite Nat.iter_succ_r.
    + now rewrite lookup_insert_ne.
Qed.

Lemma processAll_loop_allocated (ps : list positive)
    (h h' : gmap positive WoodItem) :
  processAll_loop ps h = Some h' -> Forall (fun p => is_Some (h !! p)) ps.
Proof.
  revert h; induction ps as [|p rest IH]; intros h Hrun; [constructor|].
  simpl in Hrun. unfold process_at in Hrun.
  destruct (h !! p) as [item|] eqn:Hp; [|discriminate].
  constructor; [eauto|].
  eapply Forall_impl; [exact (IH _ Hrun)|]. intros q [it Hq]. simpl in *.
  destruct (decide (p = q)) as [->|Hne].
  - eauto.
  - rewrite lookup_insert_ne in Hq by trivial. eauto.
Qed.

(** ** Repeated processing *)

Lemma iter_process_frame n item :
  getType (Nat.iter n process item) = getType item /\
  getThickness (Nat.iter n process item) = getThickness item /\
  processing_steps (Nat.iter n process item) = processing_steps item.
Proof.
  induction n as [|n (IHt & IHth & IHs)]; [auto|].
  rewrite Nat.iter_succ, process_type, process_thickness, process_steps. auto.
Qed.

Lemma iter_process_treated n item :
  isTreated item = true -> isTreated (Nat.iter n process item) = true.
Proof.
  intros H. induction n as [|n IH]; trivial.
  rewrite Nat.iter_succ. unfold process. now apply for_each_treated.
Qed.

Lemma iter_process_moisture n item :
  (0 <=? getMoisture item)%float = true ->
  (0 <=? getMoisture (Nat.iter n process item))%float = true /\
  (getMoisture (Nat.iter n process item) <=? getMoisture item)%float = true.
Proof.
  intros H. induction n as [|n [IH0 IHle]].
  - split; [trivial|now apply leb_refl_nonneg].
  - rewrite Nat.iter_succ. unfold process at 1 3.
    destruct (for_each_moisture
                (processing_steps (Nat.iter n process item)) _ IH0) as [H0 Hle].
    split; [trivial|].
    now apply leb_trans with (getMoisture (Nat.iter n process item)).
Qed.

Lemma for_each_nan steps item :
  is_nan (getMoisture item) = true ->
  is_nan (getMoisture (for_each perform steps item)) = true /\
  isTreated (for_each perform steps item) =
    isTreated item || existsb is_treat steps.
Proof.
  revert item; induction steps as [|step rest IH]; intros item H.
  - simpl. now rewrite orb_false_r.
  - simpl for_each. destruct (IH _ (perform_nan step item H)) as [Hn Ht].
    split; [trivial|]. rewrite Ht. simpl existsb. rewrite orb_assoc. f_equal.
    destruct step as [len| | |inner cond val]; simpl.
    + now rewrite orb_false_r.
    + now rewrite orb_false_r.
    + now rewrite orb_true_r.
    + rewrite (gtb_nan _ val H), andb_false_r. now rewrite orb_false_r.
Qed.

(** * Further properties *)

(** ** Of [process] *)

(** X1: the type and the steps of an item are the same after any number of
    calls of [process]. *)
Theorem process_preserves_type_and_steps item n :
  getType (Nat.iter n process item) = getType item /\
  processing_steps (Nat.iter n process item) = processing_steps item.
Proof. destruct (iter_process_frame n item) as (Ht & _ & Hs). auto. Qed.

(** X2: a non-negative moisture is non-negative after [process]. *)
Theorem process_keeps_moisture_nonnegative item :
  (0 <=? getMoisture item)%float = true ->
  (0 <=? getMoisture (process item))%float = true.
Proof. intros H. now apply for_each_moisture. Qed.

Lemma process_keeps_moisture_nonnegative_witness :
  let teak := mkWoodItem "Teak" 15 0 false [DryWood; DryWood] in
  (0 <=? getMoisture teak)%float = true /\
  (0 <=? getMoisture (process teak))%float = true.
Proof.
  split; [reflexivity|].
  apply process_keeps_moisture_nonnegative. reflexivity.
Defined.

(** X3: a strictly positive moisture is strictly positive after [process]:
    drying never rounds a moisture down to zero. *)
Theorem process_keeps_moisture_positive item :
  (0 <? getMoisture item)%float = true ->
  (0 <? getMoisture (process item))%float = true.
Proof.
  intros H. unfold process.
  apply (for_each_invariant (fun it => (0 <? getMoisture it)%float = true));
    trivial.
  intros step it. apply perform_moisture_pos.
Qed.

Lemma process_keeps_moisture_positive_witness :
  let teak := mkWoodItem "Teak" 15 0x1p-1074 false [DryWood; DryWood] in
  (0 <? getMoisture teak)%float = true /\
  (0 <? getMoisture (process teak))%float = true.
Proof.
  split; [reflexivity|].
  apply process_keeps_moisture_positive. reflexivity.
Defined.

(** X4: when the moisture is not a number, it is not a number after
    [process] either, no condition holds, and the item ends up treated
    exactly if it was treated or has a [TreatWood] among its steps. *)
Theorem process_nan_moisture item :
  is_nan (getMoisture item) = true ->
  is_nan (getMoisture (process item)) = true /\
  isTreated (process item) =
    isTreated item || existsb is_treat (processing_steps item).
Proof. intros H. now apply for_each_nan. Qed.

Lemma process_nan_moisture_witness :
  let walnut :=
    mkWoodItem "Walnut" 18 nan false
      [DryWood; ConditionalTreatment TreatWood "MoistureAbove" 10] in
  is_nan (getMoisture walnut) = true /\
  is_nan (getMoisture (process walnut)) = true /\
  isTreated (process walnut) =
    isTreated walnut || existsb is_treat (processing_steps walnut).
Proof.
  split; [reflexivity|].
  apply process_nan_moisture. reflexivity.
Defined.

(** X5: on a non-negative moisture [m], [DryWood] yields a strictly smaller
    moisture exactly when [2^-1073 < m < +infinity]; zero, the two smallest
    positive doubles and [+infinity] are left as they are. *)
Theorem DryWood_strict_iff item :
  (0 <=? getMoisture item)%float = true ->
  (getMoisture (perform DryWood item) <? getMoisture item)%float =
  (0x1p-1073 <? getMoisture item)%float && (getMoisture item <? infinity)%float.
Proof. intros H. simpl. unfold getMoisture in *; simpl. now apply mul_0_8_ltb. Qed.

Lemma DryWood_strict_iff_witness :
  let teak := mkWoodItem "Teak" 15 0x1p-1073 false [DryWood] in
  (0 <=? getMoisture teak)%float = true /\
  (getMoisture (perform DryWood teak) <? getMoisture teak)%float =
  (0x1p-1073 <? getMoisture teak)%float
  && (getMoisture teak <? infinity)%float.
Proof.
  split; [reflexivity|].
  apply DryWood_strict_iff. reflexivity.
Defined.

(** X6: if [DryWood] is one of the steps of an item and its moisture [m]
    satisfies [2^-1073 < m < +infinity], the moisture is strictly smaller
    after [process]. *)
Theorem process_strictly_dries item :
  In DryWood (processing_steps item) ->
  (0x1p-1073 <? getMoisture item)%float = true ->
  (getMoisture item <? infinity)%float = true ->
  (getMoisture (process item) <? getMoisture item)%float = true.
Proof. intros Hin Hlo Hhi. now apply for_each_strict. Qed.

Lemma process_strictly_dries_witness :
  let mahogany :=
    mkWoodItem "Mahogany" 20 14 false
      [ConditionalTreatment DryWood "MoistureAbove" 20; TreatWood; DryWood] in
  (getMoisture (process mahogany) <? getMoisture mahogany)%float = true.
Proof.
  apply process_strictly_dries; [simpl; auto|reflexivity|reflexivity].
Defined.

(** X7: an item that has [TreatWood] among its steps is treated after
    [process]. *)
Theorem process_with_TreatWood_treats item :
  In TreatWood (processing_steps item) -> isTreated (process item) = true.
Proof. apply for_each_TreatWood. Qed.

Lemma process_with_TreatWood_treats_witness :
  let mahogany := mkWoodItem "Mahogany" 20 14 false [DryWood; TreatWood] in
  isTreated (process mahogany) = true.
Proof. apply process_with_TreatWood_treats. simpl; auto. Defined.

(** X8: for an item whose steps are all unconditional ([CutWood], [DryWood]
    or [TreatWood]), [process] multiplies the moisture by [0.8] once for
    each [DryWood], sets the flag if there is a [TreatWood], and changes
    nothing else. *)
Theorem process_unconditional item :
  Forall (fun step => unconditional step = true) (processing_steps item) ->
  process item =
  setTreated
    (isTreated item || existsb is_treat (processing_steps item))
    (setMoisture
       (Nat.iter (length (List.filter is_dry (processing_steps item)))
          (fun m => (m * c_0_8)%float) (getMoisture item))
       item).
Proof. apply for_each_unconditional. Qed.

Lemma process_unconditional_witness :
  let mahogany :=
    mkWoodItem "Mahogany" 20 14 false [DryWood; TreatWood; CutWood 2.5; DryWood] in
  process mahogany =
  setTreated true (setMoisture (14 * c_0_8 * c_0_8)%float mahogany).
Proof.
  apply (process_unconditional
           (mkWoodItem "Mahogany" 20 14 false
              [DryWood; TreatWood; CutWood 2.5; DryWood])).
  repeat constructor.
Defined.

(** X9: the order of unconditional steps does not matter: two items that
    differ only in the order of such steps have the same moisture and the
    same flag after [process]. *)
Theorem process_unconditional_order t thick moisture treated steps steps' :
  Permutation steps steps' ->
  Forall (fun step => unconditional step = true) steps ->
  getMoisture (process (mkWoodItem t thick moisture treated steps)) =
  getMoisture (process (mkWoodItem t thick moisture treated steps')) /\
  isTreated (process (mkWoodItem t thick moisture treated steps)) =
  isTreated (process (mkWoodItem t thick moisture treated steps')).
Proof.
  intros Hp Hu. unfold process; simpl processing_steps.
  rewrite !for_each_unconditional; trivial.
  - unfold getMoisture, isTreated; simpl.
    now rewrite (Permutation_count_dry _ _ Hp),
      (Permutation_exists_treat _ _ Hp).
  - now rewrite <- Hp.
Qed.

Lemma process_unconditional_order_witness :
  getMoisture (process (mkWoodItem "Mahogany" 20 14 false [DryWood; TreatWood])) =
  getMoisture (process (mkWoodItem "Mahogany" 20 14 false [TreatWood; DryWood])) /\
  isTreated (process (mkWoodItem "Mahogany" 20 14 false [DryWood; TreatWood])) =
  isTreated (process (mkWoodItem "Mahogany" 20 14 false [TreatWood; DryWood])).
Proof.
  apply process_unconditional_order; [apply perm_swap|repeat constructor].
Defined.

(** X10: for an item without [DryWood] in its steps, wrapped ones included,
    [process] leaves the moisture as it is and a second [process] changes
    nothing more. *)
Theorem process_dry_free_idempotent item :
  Forall (fun step => dries step = false) (processing_steps item) ->
  getMoisture (process item) = getMoisture item /\
  process (process item) = process item.
Proof.
  intros Hd. unfold process at 1 3 4.
  rewrite (for_each_dry_free _ item Hd).
  destruct (existsb _ _) eqn:He.
  - split; trivial. unfold process. simpl processing_steps.
    rewrite for_each_dry_free by trivial.
    change (getMoisture (setTreated true item)) with (getMoisture item).
    now rewrite He.
  - split; trivial. unfold process. rewrite for_each_dry_free by trivial.
    now rewrite He.
Qed.

Lemma process_dry_free_idempotent_witness :
  let walnut :=
    mkWoodItem "Walnut" 18 12 false
      [CutWood 2.5; ConditionalTreatment TreatWood "MoistureAbove" 10] in
  getMoisture (process walnut) = getMoisture walnut /\
  process (process walnut) = process walnut.
Proof.
  apply (process_dry_free_idempotent
           (mkWoodItem "Walnut" 18 12 false
              [CutWood 2.5; ConditionalTreatment TreatWood "MoistureAbove" 10])).
  repeat constructor.
Defined.

(** With [DryWood], a second [process] dries once more. *)
Example process_not_idempotent :
  let teak := mkWoodItem "Teak" 15 15 false [DryWood] in
  (getMoisture (process (process teak)) <? getMoisture (process teak))%float
  = true.
Proof. reflexivity. Qed.

(** ** Of nested conditions *)

(** X11: two conditions around a step can be swapped, and a condition
    repeated around itself is the condition once. *)
Theorem ConditionalTreatment_nested inner c1 t1 c2 t2 item :
  perform (ConditionalTreatment (ConditionalTreatment inner c2 t2) c1 t1) item =
  perform (ConditionalTreatment (ConditionalTreatment inner c1 t1) c2 t2) item /\
  perform (ConditionalTreatment (ConditionalTreatment inner c1 t1) c1 t1) item =
  perform (ConditionalTreatment inner c1 t1) item.
Proof.
  simpl. split.
  - now destruct (String.eqb c1 _ && gtb _ t1), (String.eqb c2 _ && gtb _ t2).
  - now destruct (String.eqb c1 _ && gtb _ t1).
Qed.

(** ** Of [processAll] *)

(** X12: [processAll] runs to its end exactly when every entry of the
    inventory is the address of a live item. *)
Theorem processAll_defined_iff inv (h : gmap positive WoodItem) :
  is_Some (processAll inv h) <->
  Forall (fun p => is_Some (h !! p)) (getItems inv).
Proof.
  unfold processAll, getItems. split.
  - intros [h' Hrun]. now apply processAll_loop_allocated with h'.
  - intros Hall. destruct (processAll_loop_lookup _ _ Hall) as (h' & -> & _).
    eauto.
Qed.

(** X13: when every entry is live, [processAll] leaves at each address the
    item that was there, processed once for each time the address occurs in
    the inventory; items that are not in the inventory are not touched and
    no address is added or removed. *)
Theorem processAll_processes_each_entry inv (h : gmap positive WoodItem) :
  Forall (fun p => is_Some (h !! p)) (getItems inv) ->
  exists h',
    processAll inv h = Some h' /\
    dom h' = dom h /\
    forall q,
      h' !! q =
      Nat.iter (count_occ Pos.eq_dec (getItems inv) q) process <$> h !! q.
Proof.
  intros Hall.
  destruct (processAll_loop_lookup _ _ Hall) as (h' & Hrun & Hlook).
  exists h'. repeat split; trivial.
  apply set_eq. intros q. rewrite !elem_of_dom, Hlook.
  now rewrite fmap_is_Some.
Qed.

Lemma processAll_processes_each_entry_witness :
  let teak := mkWoodItem "Teak" 15 15 false [DryWood] in
  let cedar := mkWoodItem "Cedar" 22 12 false [TreatWood] in
  let h : gmap positive WoodItem := <[2%positive := cedar]> {[1%positive := teak]} in
  let inv := addItem (addItem emptyInventory 1%positive) 1%positive in
  exists h',
    processAll inv h = Some h' /\
    dom h' = dom h /\
    forall q,
      h' !! q =
      Nat.iter (count_occ Pos.eq_dec (getItems inv) q) process <$> h !! q.
Proof.
  apply processAll_processes_each_entry.
  repeat constructor; eexists; reflexivity.
Defined.

(** X14: after [processAll], every item of the heap, in the inventory or
    not, is at its address with the type, thickness and steps it had; it is
    treated if it was, and its moisture, if it was non-negative, is not
    larger. *)
Theorem processAll_keeps_items inv (h h' : gmap positive WoodItem) q item :
  processAll inv h = Some h' ->
  h !! q = Some item ->
  exists item',
    h' !! q = Some item' /\
    getType item' = getType item /\
    getThickness item' = getThickness item /\
    processing_steps item' = processing_steps item /\
    (isTreated item = true -> isTreated item' = true) /\
    ((0 <=? getMoisture item)%float = true ->
     (getMoisture item' <=? getMoisture item)%float = true).
Proof.
  intros Hrun Hq.
  assert (Hall : Forall (fun p => is_Some (h !! p)) (getItems inv))
    by now apply processAll_loop_allocated with h'.
  destruct (processAll_loop_lookup _ _ Hall) as (h'' & Hrun' & Hlook).
  unfold processAll in Hrun. unfold getItems in Hrun'.
  rewrite Hrun in Hrun'. injection Hrun' as <-.
  exists (Nat.iter (count_occ Pos.eq_dec (getItems inv) q) process item).
  split; [now rewrite Hlook, Hq|].
  destruct (iter_process_frame
              (count_occ Pos.eq_dec (getItems inv) q) item) as (Ht & Hth & Hs).
  repeat split; trivial.
  - apply iter_process_treated.
  - intros H0. now apply iter_process_moisture.
Qed.

Lemma processAll_keeps_items_witness :
  let teak := mkWoodItem "Teak" 15 15 false [DryWood] in
  let h : gmap positive WoodItem := {[1%positive := teak]} in
  let inv := addItem emptyInventory 1%positive in
  exists item',
    <[1%positive := process teak]> h !! 1%positive = Some item' /\
    getType item' = getType teak /\
    getThickness item' = getThickness teak /\
    processing_steps item' = processing_steps teak /\
    (isTreated teak = true -> isTreated item' = true) /\
    ((0 <=? getMoisture teak)%float = true ->
     (getMoisture item' <=? getMoisture teak)%float = true).
Proof.
  apply (processAll_keeps_items
           (addItem emptyInventory 1%positive)
           {[1%positive := mkWoodItem "Teak" 15 15 false [DryWood]]});
    reflexivity.
Defined.

(** ** Of the test cases *)

(** X15: the six test cases pass, so [main] reports six passes, in the
    order of the calls, and returns 0. *)
Theorem main_reports_six_passes {Console : Type}
    (report : string -> string -> bool -> Console -> Console) (out : Console) :
  main report out =
  Some
    (report "WoodTest" "UntreatedWhenMoistureBelowThreshold" true
       (report "WoodTest" "ThicknessUnchangedAfterProcessing" true
          (report "WoodTest" "ConditionalTreatment" true
             (report "WoodTest" "ProcessDrying" true
                (report "WoodTest" "MultipleItemsCount" true
                   (report "WoodTest" "AddSingleItem" true out))))),
     0%Z).
Proof.
  unfold main.
  rewrite AddSingleItem_passes, MultipleItemsCount_passes,
    ProcessDrying_passes, ConditionalTreatment_passes,
    ThicknessUnchangedAfterProcessing_passes,
    UntreatedWhenMoistureBelowThreshold_passes.
  reflexivity.
Qed.
